(** * Grid layout engine and edit history of the visual builder

    Shallow embedding of
    - [src/src/types/index.ts]            : the component record;
    - [src/src/app/page.tsx]              : [calculateNextPosition], [createComponent],
                                            [addToHistory], [undo], [redo] and the
                                            component handlers of the page;
    - [src/unnamed/part_003]              : [calculateGridPosition] and
                                            [handleComponentReorder] of the drag and drop
                                            area, and its render, which sorts the
                                            [components] prop in place;
    - [src/src/components/TextComponent.tsx]
                                          : the mouse-move / mouse-up handlers of
                                            [handleResizeStart].

    Pixel arithmetic of [calculateGridPosition] is done in [Q] (exact rationals
    standing in for JS doubles); everything on the grid is an integer [Z]. *)

From Stdlib Require Import ZArith QArith Qround String Ascii List Bool Lia.
From Stdlib Require Import Sorted Permutation.
Import ListNotations.
Open Scope Z_scope.

(* ------------------------------------------------------------------ *)
(** ** Data model ([types/index.ts]) *)

Inductive ComponentKind := text | image.

Record Position := mkPosition { x : Z; y : Z }.

Record Component := mkComponent {
  id : string;
  type : ComponentKind;
  content : string;
  width : Z;          (* 1-12 for grid system *)
  position : Position
}.

(** [{ ...c, position: p }] *)
Definition with_position (c : Component) (p : Position) : Component :=
  mkComponent (id c) (type c) (content c) (width c) p.

(** [{ ...c, width: w, position: { ...c.position, x: px } }] *)
Definition with_width_x (c : Component) (w px : Z) : Component :=
  mkComponent (id c) (type c) (content c) w (mkPosition px (y (position c))).

Definition GRID_COLUMNS : Z := 12.

(* ------------------------------------------------------------------ *)
(** ** Edit history ([addToHistory], [undo], [redo] of page.tsx)

    The history is generic in what a snapshot is: the page stores arrays of
    components (references to them, see the session model below). *)

Record History (A : Type) := mkHistory { history : list A; historyIndex : Z }.
Arguments mkHistory {A} _ _.
Arguments history {A} _.
Arguments historyIndex {A} _.

Section HistoryOps.
Context {A : Type}.

(** [useState([])], [useState(-1)] *)
Definition emptyHistory : History A := mkHistory [] (-1).

(** [Array.prototype.slice(0, end)]: a negative [end] counts from the back. *)
Definition js_slice0 (l : list A) (e : Z) : list A :=
  let len := Z.of_nat (length l) in
  let k := if e <? 0 then Z.max (len + e) 0 else Z.min e len in
  firstn (Z.to_nat k) l.

(** [arr[i]], [None] standing for [undefined]. *)
Definition js_index (l : list A) (i : Z) : option A :=
  if i <? 0 then None else nth_error l (Z.to_nat i).

(** [addToHistory(newComponents)] : the new [history] and [historyIndex]. *)
Definition addToHistory (h : History A) (newComponents : A) : History A :=
  let newHistory := js_slice0 (history h) (historyIndex h + 1) ++ [newComponents] in
  if Z.of_nat (length newHistory) >? 50
  then mkHistory (tl newHistory) (historyIndex h)          (* newHistory.shift() *)
  else mkHistory newHistory (Z.of_nat (length newHistory) - 1).

(** [undo()] : the new history state, and [Some v] when [setComponents(v)] is
    called ([v = None] is [undefined]). *)
Definition undo (h : History A) : History A * option (option A) :=
  if historyIndex h >? 0 then
    let newIndex := historyIndex h - 1 in
    (mkHistory (history h) newIndex, Some (js_index (history h) newIndex))
  else (h, None).

(** [redo()] *)
Definition redo (h : History A) : History A * option (option A) :=
  if historyIndex h <? Z.of_nat (length (history h)) - 1 then
    let newIndex := historyIndex h + 1 in
    (mkHistory (history h) newIndex, Some (js_index (history h) newIndex))
  else (h, None).

Inductive HistoryOp := HCommit (s : A) | HUndo | HRedo.

Definition historyStep (h : History A) (op : HistoryOp) : History A :=
  match op with
  | HCommit s => addToHistory h s
  | HUndo => fst (undo h)
  | HRedo => fst (redo h)
  end.

Definition runHistory (h : History A) (ops : list HistoryOp) : History A :=
  fold_left historyStep ops h.

(** [n] successive [redo()] calls. *)
Definition redoN (n : nat) (h : History A) : History A :=
  Nat.iter n (fun h' => fst (redo h')) h.

End HistoryOps.

Arguments HistoryOp : clear implicits.

(* ------------------------------------------------------------------ *)
(** ** Placement ([calculateNextPosition], [createComponent] of page.tsx) *)

(** [components[components.length - 1]] is the last element of the array. *)
Definition calculateNextPosition (components : list Component) : Position :=
  match components with
  | [] => mkPosition 0 0
  | c0 :: _ =>
      let lastComponent := last components c0 in
      let nextX := x (position lastComponent) + width lastComponent in
      (* Check if component fits in current row (12-column grid) *)
      if nextX + 6 <=? 12
      then mkPosition nextX (y (position lastComponent))
      else mkPosition 0 (y (position lastComponent) + 1)
  end.

Definition newline : string := String (Ascii.ascii_of_nat 10) EmptyString.

Definition text_default_content : string :=
  "# New Text Component" ++ newline ++ newline ++
  "Enter your markdown content here..." ++ newline ++ newline ++
  "- **Bold text**" ++ newline ++ "- *Italic text*" ++ newline ++ "- `Code snippets`".

(** [createComponent(type)]; [timestamp] is the decimal text of [Date.now()]. *)
Definition createComponent (components : list Component) (kind : ComponentKind)
    (timestamp : string) : Component :=
  let position := calculateNextPosition components in
  match kind with
  | text => mkComponent ("text-" ++ timestamp) text text_default_content 6 position
  | image => mkComponent ("image-" ++ timestamp) image "https://placehold.co/600x400" 6 position
  end.

(* ------------------------------------------------------------------ *)
(** ** Reorder ([calculateGridPosition], [handleComponentReorder] of part_003) *)

Definition calculateGridPosition (dropX dropY containerWidth : Q) : Position :=
  let gridWidth := (containerWidth / inject_Z GRID_COLUMNS)%Q in
  let gridX := Z.max 0 (Z.min (GRID_COLUMNS - 1) (Qfloor (dropX / gridWidth))) in
  let rowHeight := inject_Z 80 in
  let gridY := Z.max 0 (Qfloor (dropY / rowHeight)) in
  mkPosition gridX gridY.

(** The predicate of [components.find] looking for the target component. *)
Definition isTarget (componentId : string) (gridX gridY : Z) (c : Component) : bool :=
  negb (String.eqb (id c) componentId) &&
  (y (position c) =? gridY) &&
  (x (position c) <=? gridX) &&
  (gridX <? x (position c) + width c).

(** The body of [handleComponentReorder] once the drop cell is known:
    [None] is the early [return] (no call of [onReorderComponents]),
    [Some l] the array passed to [onReorderComponents]. *)
Definition reorderAtCell (components : list Component) (componentId : string)
    (gridX gridY : Z) : option (list Component) :=
  match find (fun c => String.eqb (id c) componentId) components with
  | None => None
  | Some draggedComponent =>
      match find (isTarget componentId gridX gridY) components with
      | Some targetComponent =>
          Some (map (fun c =>
                  if String.eqb (id c) componentId
                  then with_position c (position targetComponent)
                  else if String.eqb (id c) (id targetComponent)
                  then with_position c (position draggedComponent)
                  else c) components)
      | None =>
          let newX :=
            if gridX + width draggedComponent >? GRID_COLUMNS
            then Z.max 0 (GRID_COLUMNS - width draggedComponent)
            else gridX in
          Some (map (fun c =>
                  if String.eqb (id c) componentId
                  then with_position c (mkPosition newX gridY)
                  else c) components)
      end
  end.

Definition handleComponentReorder (components : list Component) (componentId : string)
    (dropX dropY containerWidth : Q) : option (list Component) :=
  let g := calculateGridPosition dropX dropY containerWidth in
  reorderAtCell components componentId (x g) (y g).

(* ------------------------------------------------------------------ *)
(** ** Resize ([handleResizeStart] of TextComponent.tsx; ImageComponent.tsx is alike) *)

Inductive Direction := left | right.

(** [Math.round(v)] is [floor(v + 0.5)]. *)
Definition js_round (v : Q) : Z := Qfloor (v + (1 # 2)).

(** The variables [finalWidth], [finalPosition] of the drag closure. *)
Record ResizeState := mkResizeState { finalWidth : Z; finalPosition : Z }.

Definition resizeStart (component : Component) : ResizeState :=
  mkResizeState (width component) (x (position component)).

(** [handleMouseMove] for [deltaX = e.clientX - startX]: the new closure
    variables and the live update passed to [onUpdateResize], if any. *)
Definition handleMouseMove (component : Component) (direction : Direction)
    (st : ResizeState) (deltaX : Q) : ResizeState * option Component :=
  let startWidth := width component in
  let startPosition := x (position component) in
  let gridWidth := inject_Z 100 in
  let deltaColumns := js_round (deltaX / gridWidth) in
  let '(newWidth, newPosition) :=
    match direction with
    | left =>
        let w := Z.max 1 (Z.min 12 (startWidth - deltaColumns)) in
        (w, startPosition + (startWidth - w))
    | right => (Z.max 1 (Z.min 12 (startWidth + deltaColumns)), startPosition)
    end in
  if (newPosition + newWidth <=? 12) && (newPosition >=? 0) then
    (mkResizeState newWidth newPosition,
     if negb (newWidth =? width component) || negb (newPosition =? x (position component))
     then Some (with_width_x component newWidth newPosition)
     else None)
  else (st, None).

(** [handleMouseUp]: the component passed to [onUpdate]. *)
Definition handleMouseUp (component : Component) (st : ResizeState) : Component :=
  with_width_x component (finalWidth st) (finalPosition st).

(** A whole drag: the mouse moves (as [deltaX]), then the mouse up. *)
Definition resizeDrag (component : Component) (direction : Direction) (moves : list Q)
    : Component :=
  handleMouseUp component
    (fold_left (fun st d => fst (handleMouseMove component direction st d))
       moves (resizeStart component)).

(* ------------------------------------------------------------------ *)
(** ** The page session

    React state holds references to arrays: [components] and the entries of
    [history] point into a heap of arrays.  [addToHistory(newComponents)]
    stores the very array given to [setComponents], and [undo]/[redo] put a
    stored array back into [components].  The render of the drag and drop
    area calls [components.sort(...)], which sorts the array held by
    [components] in place (and so the history entry sharing it).
    The debounced history commit of the live resize updates (a 300 ms timer)
    is not modelled; the drag is modelled by its final [onUpdate]. *)

Record Session := mkSession {
  heap : list (list Component);
  components : nat;
  hist : History nat
}.

Definition deref (s : Session) (r : nat) : list Component := nth r (heap s) [].

Definition currentLayout (s : Session) : list Component := deref s (components s).

(** [useState<ComponentType[]>([])], [useState([])], [useState(-1)] *)
Definition initialSession : Session := mkSession [[]] 0 emptyHistory.

(** [setComponents(newComponents); addToHistory(newComponents)] *)
Definition setAndCommit (s : Session) (newComponents : list Component) : Session :=
  let r := length (heap s) in
  mkSession (heap s ++ [newComponents]) r (addToHistory (hist s) r).

Fixpoint set_nth {T} (n : nat) (v : T) (l : list T) : list T :=
  match l, n with
  | [], _ => []
  | _ :: t, O => v :: t
  | h :: t, S n' => h :: set_nth n' v t
  end.

(** The comparator [(a, b) => a.position.y - b.position.y || a.position.x - b.position.x]. *)
Definition gridCompare (a b : Component) : Z :=
  let d := y (position a) - y (position b) in
  if d =? 0 then x (position a) - x (position b) else d.

Fixpoint insertSorted (c : Component) (l : list Component) : list Component :=
  match l with
  | [] => [c]
  | h :: t => if gridCompare c h <=? 0 then c :: h :: t else h :: insertSorted c t
  end.

(** [Array.prototype.sort] is stable: an insertion sort gives the same order. *)
Definition js_sort (l : list Component) : list Component := fold_right insertSorted [] l.

(** The render of [DragAndDropArea]: [components.sort(...)] in place. *)
Definition render (s : Session) : Session :=
  mkSession (set_nth (components s) (js_sort (currentLayout s)) (heap s))
            (components s) (hist s).

Inductive Action :=
  | AddComponent (kind : ComponentKind) (timestamp : string)
  | UpdateComponent (updatedComponent : Component)
  | DeleteComponent (cid : string)
  | ReorderDrop (componentId : string) (dropX dropY containerWidth : Q)
  | ResizeDrag (cid : string) (direction : Direction) (moves : list Q)
  | Undo
  | Redo
  | ClearComponents.

(** [setComponents(history[newIndex])]; [history[newIndex]] always exists
    when the index stays inside the history, the [None] case keeps the
    components. *)
Definition showSnapshot (s : Session) (h : History nat) (u : option (option nat)) : Session :=
  match u with
  | Some (Some r) => mkSession (heap s) r h
  | _ => mkSession (heap s) (components s) h
  end.

Definition updateComponent (s : Session) (updatedComponent : Component) : Session :=
  setAndCommit s (map (fun c => if String.eqb (id c) (id updatedComponent)
                                then updatedComponent else c) (currentLayout s)).

Definition sessionAction (s : Session) (a : Action) : Session :=
  match a with
  | AddComponent kind timestamp =>
      setAndCommit s (currentLayout s ++ [createComponent (currentLayout s) kind timestamp])
  | UpdateComponent c => updateComponent s c
  | DeleteComponent cid =>
      setAndCommit s (filter (fun c => negb (String.eqb (id c) cid)) (currentLayout s))
  | ReorderDrop componentId dropX dropY containerWidth =>
      match handleComponentReorder (currentLayout s) componentId dropX dropY containerWidth with
      | None => s
      | Some updatedComponents => setAndCommit s updatedComponents
      end
  | ResizeDrag cid direction moves =>
      match find (fun c => String.eqb (id c) cid) (currentLayout s) with
      | None => s
      | Some component => updateComponent s (resizeDrag component direction moves)
      end
  | Undo => let '(h, u) := undo (hist s) in showSnapshot s h u
  | Redo => let '(h, u) := redo (hist s) in showSnapshot s h u
  | ClearComponents => mkSession (heap s ++ [[]]) (length (heap s)) emptyHistory
  end.

(** Every state change is followed by a render. *)
Definition runSession (s : Session) (actions : list Action) : Session :=
  fold_left (fun s a => render (sessionAction s a)) actions s.

(* ------------------------------------------------------------------ *)
(** ** Notions of the specification used in the statements *)

(** Layout invariant: on every row the intervals [[x, x + width)] of two
    distinct components do not overlap. *)
Definition NoOverlap (L : list Component) : Prop :=
  forall (i j : nat) (a b : Component), i <> j ->
    nth_error L i = Some a -> nth_error L j = Some b ->
    y (position a) = y (position b) ->
    x (position a) + width a <= x (position b) \/ x (position b) + width b <= x (position a).

(** [1 <= width <= 12] and [position.x + width <= 12]. *)
Definition gridFit (c : Component) : bool :=
  (1 <=? width c) && (width c <=? 12) && (x (position c) + width c <=? 12).

Definition clamp (v lo hi : Z) : Z := Z.max lo (Z.min hi v).

(** The placement the specification derives from the last-inserted block. *)
Definition nextPositionFrom (lastBlock : Component) : Position :=
  let nextX := x (position lastBlock) + width lastBlock in
  if nextX + 6 <=? 12 then mkPosition nextX (y (position lastBlock))
  else mkPosition 0 (y (position lastBlock) + 1).

Definition footprint (c : Component) : Z * Z * Z := (x (position c), y (position c), width c).

(** The order the render sorts by: [gridCompare a b <= 0]. *)
Definition gridLe (a b : Component) : Prop := gridCompare a b <= 0.

(** Bounds kept by the history of the page. *)
Definition histInv {A} (h : History A) : Prop :=
  -1 <= historyIndex h /\ historyIndex h < Z.of_nat (length (history h)) /\
  (length (history h) <= 50)%nat.


(* ------------------------------------------------------------------ *)
(** ** Concrete inputs *)

(** A full history of 50 snapshots [0 .. 49] with the index on the last one. *)
Definition full_history : History nat := mkHistory (seq 0 50) 49.

Definition blockA : Component := mkComponent "a" text "" 2 (mkPosition 0 0).
Definition blockB : Component := mkComponent "b" text "" 6 (mkPosition 2 0).

(** Two 6-wide blocks side by side on row 0. *)
Definition blockL : Component := mkComponent "l" text "" 6 (mkPosition 0 0).
Definition blockR : Component := mkComponent "r" image "" 6 (mkPosition 6 0).

Definition summary (L : list Component) : list (string * Z * Z * Z) :=
  map (fun c => (id c, x (position c), y (position c), width c)) L.

(** Add a text block and an image block, narrow the image block to 2 columns
    from its left edge (400 px), then drop the text block on the image block. *)
Definition swap_out_of_grid_actions : list Action :=
  [AddComponent text "1"; AddComponent image "2";
   ResizeDrag "image-2" left [400%Q];
   ReorderDrop "text-1" 1050 40 1200].

(** Add a text block and an image block, then move the text block to the
    empty cell (0, 3). *)
Definition move_first_block_down_actions : list Action :=
  [AddComponent text "1"; AddComponent image "2"; ReorderDrop "text-1" 50 250 1200].

(* ------------------------------------------------------------------ *)
(** ** Proof automation *)

Ltac discharge :=
  first [ reflexivity | cbn; lia | vm_compute; reflexivity
        | vm_compute; intros ?; discriminate | vm_compute; lia ].

(** [NoOverlap] of a concrete two-element list, index by index. *)
Ltac no_overlap_2 :=
  let i := fresh "i" in let j := fresh "j" in
  let a := fresh "a" in let b := fresh "b" in
  let Ha := fresh "Ha" in let Hb := fresh "Hb" in
  intros i j a b ? Ha Hb ?;
  destruct i as [|[|i]]; destruct j as [|[|j]]; simpl in Ha, Hb;
    try (destruct i; discriminate); try (destruct j; discriminate); try lia;
    injection Ha as <-; injection Hb as <-; simpl in *; lia.

(* ------------------------------------------------------------------ *)
(** ** Lemmas on the history *)

Section HistoryLemmas.
Context {A : Type}.

Lemma js_slice0_nonneg (l : list A) (e : Z) :
  0 <= e -> js_slice0 l e = firstn (Z.to_nat e) l.
Proof.
  intros He. unfold js_slice0.
  replace (e <? 0) with false by (symmetry; apply Z.ltb_ge; lia).
  destruct (Z.min_spec e (Z.of_nat (length l))) as [[_ ->] | [Hle ->]]; [reflexivity|].
  rewrite Nat2Z.id, firstn_all, firstn_all2; [reflexivity | lia].
Qed.

Lemma js_slice0_length (l : list A) (e : Z) : (length (js_slice0 l e) <= length l)%nat.
Proof. unfold js_slice0. rewrite length_firstn. lia. Qed.

Lemma addToHistory_length (h : History A) (s : A) :
  (length (history h) <= 50)%nat -> (length (history (addToHistory h s)) <= 50)%nat.
Proof.
  intros Hl. unfold addToHistory.
  pose proof (js_slice0_length (history h) (historyIndex h + 1)) as Hs.
  remember (js_slice0 (history h) (historyIndex h + 1)) as sl eqn:Esl.
  destruct (Z.of_nat (length (sl ++ [s])) >? 50) eqn:E; simpl.
  - destruct sl as [|a r]; simpl in *; rewrite ?length_app in *; simpl in *; lia.
  - rewrite Z.gtb_ltb, Z.ltb_ge in E. rewrite length_app in *. simpl in *. lia.
Qed.

Lemma historyStep_length (h : History A) (op : HistoryOp A) :
  (length (history h) <= 50)%nat -> (length (history (historyStep h op)) <= 50)%nat.
Proof.
  intros Hl. destruct op as [s| |]; simpl.
  - now apply addToHistory_length.
  - unfold undo. destruct (historyIndex h >? 0); exact Hl.
  - unfold redo. destruct (historyIndex h <? _); exact Hl.
Qed.

End HistoryLemmas.

(* ------------------------------------------------------------------ *)
(** ** Claims on the history *)


Section HistoryClaims.
Context {A : Type}.

Lemma redo_noop_iter (h : History A) :
  redo h = (h, None) -> forall n, redoN n h = h.
Proof.
  intros Hr n. induction n as [|n IH]; [reflexivity|].
  unfold redoN in *. simpl. rewrite IH, Hr. reflexivity.
Qed.

Lemma runHistory_length (h : History A) (ops : list (HistoryOp A)) :
  (length (history h) <= 50)%nat -> (length (history (runHistory h ops)) <= 50)%nat.
Proof.
  revert h. induction ops as [|op ops IH]; intros h Hl; simpl; [exact Hl|].
  apply IH, historyStep_length, Hl.
Qed.

(** C4: from the empty history ([historyIndex = -1], [history = []]), any
    sequence of [addToHistory], [undo] and [redo] keeps at most 50 snapshots. *)
Theorem history_length_at_most_50 (ops : list (HistoryOp A)) :
  (length (history (runHistory emptyHistory ops)) <= 50)%nat.
Proof. apply runHistory_length. simpl. lia. Qed.

(** C10: [undo()] and [redo()] leave the stored snapshot list as it is; only
    the index (and the components shown) change. *)
Theorem undo_redo_keep_snapshots (h : History A) :
  history (fst (undo h)) = history h /\ history (fst (redo h)) = history h.
Proof.
  unfold undo, redo. split.
  - destruct (historyIndex h >? 0); reflexivity.
  - destruct (historyIndex h <? _); reflexivity.
Qed.

(** C7: for an index [0 < historyIndex < length history], [undo()] followed by
    [redo()] shows again the snapshot at the pre-undo index and restores that
    index (and the whole history state); [undo()] at an index [<= 0] is a no-op
    that does not call [setComponents]. *)
Theorem undo_then_redo_restores (h : History A) :
  (0 < historyIndex h < Z.of_nat (length (history h)) ->
     exists s, js_index (history h) (historyIndex h) = Some s /\
       fst (undo h) = mkHistory (history h) (historyIndex h - 1) /\
       redo (fst (undo h)) = (h, Some (Some s))) /\
  (historyIndex h <= 0 -> undo h = (h, None)).
Proof.
  destruct h as [l i]; simpl. split; intros Hi.
  - destruct (nth_error l (Z.to_nat i)) as [a|] eqn:En.
    2:{ apply nth_error_None in En. lia. }
    exists a. unfold js_index, undo, redo; simpl.
    replace (i <? 0) with false by (symmetry; apply Z.ltb_ge; lia).
    replace (i >? 0) with true by (symmetry; rewrite Z.gtb_ltb; apply Z.ltb_lt; lia).
    simpl.
    replace (i - 1 <? Z.of_nat (length l) - 1) with true by (symmetry; apply Z.ltb_lt; lia).
    replace (i - 1 + 1) with i by lia.
    assert (Hj : js_index l i = Some a).
    { unfold js_index. replace (i <? 0) with false by (symmetry; apply Z.ltb_ge; lia).
      exact En. }
    rewrite Hj. auto.
  - unfold undo; simpl.
    replace (i >? 0) with false by (symmetry; rewrite Z.gtb_ltb; apply Z.ltb_ge; lia).
    reflexivity.
Qed.

(** C3 (as the code behaves): from a state with [-1 <= historyIndex < length]
    and at most 50 snapshots, a commit overflows only on a full history of 50
    with the index at 49; [shift()] drops the oldest snapshot and the index is
    left unchanged, which after the shift is the last slot and holds the new
    snapshot: no redo step is lost. *)
Theorem addToHistory_overflow_index_on_last (h : History A) (s : A)
  (Hlo : -1 <= historyIndex h)
  (Hhi : historyIndex h < Z.of_nat (length (history h)))
  (Hcap : (length (history h) <= 50)%nat)
  (Hover : Z.of_nat (length (js_slice0 (history h) (historyIndex h + 1) ++ [s])) > 50) :
  history (addToHistory h s) = tl (history h ++ [s]) /\
  historyIndex (addToHistory h s) = historyIndex h /\
  historyIndex h = 49 /\
  historyIndex (addToHistory h s) = Z.of_nat (length (history (addToHistory h s))) - 1 /\
  js_index (history (addToHistory h s)) (historyIndex (addToHistory h s)) = Some s.
Proof.
  destruct h as [l i]; simpl in *.
  rewrite js_slice0_nonneg in Hover by lia.
  rewrite length_app, length_firstn in Hover. simpl in Hover.
  assert (Hi : i = 49) by lia.
  assert (Hl : length l = 50%nat) by lia.
  subst i.
  unfold addToHistory; simpl.
  rewrite js_slice0_nonneg by lia.
  rewrite firstn_all2 by (simpl; lia).
  replace (Z.of_nat (length (l ++ [s])) >? 50) with true
    by (symmetry; rewrite Z.gtb_ltb, length_app, Hl; reflexivity).
  simpl. destruct l as [|a r]; [discriminate|]. cbn [tl app length] in Hl |- *.
  injection Hl as Hr.
  assert (Hn : js_index (r ++ [s]) 49 = Some s).
  { unfold js_index. change (Z.to_nat 49) with 49%nat.
    rewrite nth_error_app2 by lia. rewrite Hr. reflexivity. }
  rewrite Hn. repeat split; auto. rewrite length_app, Hr. reflexivity.
Qed.

(** C8: [addToHistory] keeps only the snapshots up to the current index
    ([slice(0, historyIndex + 1)]) before appending, and leaves the index on
    the last slot: [redo()] right after it, or any number of [redo()] calls,
    change nothing. *)
Theorem addToHistory_truncates_redo_branch (h : History A) (s : A)
  (Hlo : -1 <= historyIndex h) :
  (history (addToHistory h s) = firstn (Z.to_nat (historyIndex h + 1)) (history h) ++ [s] \/
   history (addToHistory h s) = tl (firstn (Z.to_nat (historyIndex h + 1)) (history h) ++ [s])) /\
  redo (addToHistory h s) = (addToHistory h s, None) /\
  (forall n, redoN n (addToHistory h s) = addToHistory h s).
Proof.
  assert (Hr : redo (addToHistory h s) = (addToHistory h s, None)).
  { destruct h as [l i]; simpl in *. unfold addToHistory, redo; simpl.
    rewrite js_slice0_nonneg by lia.
    destruct (Z.of_nat (length (firstn (Z.to_nat (i + 1)) l ++ [s])) >? 50) eqn:E; simpl.
    - rewrite Z.gtb_ltb, Z.ltb_lt, length_app, length_firstn in E. simpl in E.
      replace (i <? Z.of_nat (length (tl (firstn (Z.to_nat (i + 1)) l ++ [s]))) - 1)
        with false; [reflexivity|].
      symmetry. apply Z.ltb_ge.
      destruct (firstn (Z.to_nat (i + 1)) l) as [|a r] eqn:Ef; simpl.
      + lia.
      + rewrite length_app. simpl.
        assert (Hlen : length (a :: r) = Nat.min (Z.to_nat (i + 1)) (length l))
          by (rewrite <- Ef, length_firstn; reflexivity).
        simpl in Hlen. lia.
    - replace (Z.of_nat (length (firstn (Z.to_nat (i + 1)) l ++ [s])) - 1
               <? Z.of_nat (length (firstn (Z.to_nat (i + 1)) l ++ [s])) - 1) with false
        by (symmetry; apply Z.ltb_ge; lia).
      reflexivity. }
  split; [|split; [exact Hr | apply redo_noop_iter, Hr]].
  unfold addToHistory. rewrite js_slice0_nonneg by lia.
  destruct (_ >? 50); [right | left]; reflexivity.
Qed.

End HistoryClaims.


(** C3 as stated fails: after the overflowing commit the index is not on the
    second-to-last slot but on the last one, which holds the new snapshot. *)
Lemma addToHistory_overflow_not_second_to_last :
  let h' := addToHistory full_history 100%nat in
  Z.of_nat (length (history h')) = 50 /\
  historyIndex h' = 49 /\
  historyIndex h' <> Z.of_nat (length (history h')) - 2 /\
  js_index (history h') (historyIndex h') = Some 100%nat /\
  redo h' = (h', None).
Proof. vm_compute. repeat split; try reflexivity; discriminate. Qed.

Lemma addToHistory_overflow_index_on_last_witness :
  history (addToHistory full_history 100%nat) = tl (history full_history ++ [100%nat]) /\
  historyIndex (addToHistory full_history 100%nat) = 49 /\
  js_index (history (addToHistory full_history 100%nat))
           (historyIndex (addToHistory full_history 100%nat)) = Some 100%nat.
Proof.
  destruct (addToHistory_overflow_index_on_last full_history 100%nat)
    as (H1 & H2 & H3 & _ & H5); try discharge.
  split; [exact H1 | split; [rewrite H2; exact H3 | exact H5]].
Defined.

(** After two commits and an undo, committing again drops the undone snapshot. *)
Lemma addToHistory_truncates_redo_branch_witness :
  history (addToHistory (fst (undo (runHistory emptyHistory [HCommit 1%nat; HCommit 2%nat]))) 3%nat)
    = [1%nat; 3%nat] /\
  redo (addToHistory (fst (undo (runHistory emptyHistory [HCommit 1%nat; HCommit 2%nat]))) 3%nat)
    = (addToHistory (fst (undo (runHistory emptyHistory [HCommit 1%nat; HCommit 2%nat]))) 3%nat, None).
Proof.
  split; [vm_compute; reflexivity|].
  apply (addToHistory_truncates_redo_branch
           (fst (undo (runHistory emptyHistory [HCommit 1%nat; HCommit 2%nat]))) 3%nat).
  discharge.
Defined.

Lemma undo_then_redo_restores_witness :
  redo (fst (undo (mkHistory [1%nat; 2%nat; 3%nat] 2))) = (mkHistory [1%nat; 2%nat; 3%nat] 2, Some (Some 3%nat)) /\
  undo (mkHistory [1%nat; 2%nat; 3%nat] 0) = (mkHistory [1%nat; 2%nat; 3%nat] 0, None).
Proof.
  destruct (undo_then_redo_restores (mkHistory [1%nat; 2%nat; 3%nat] 2)) as [H1 _].
  destruct (undo_then_redo_restores (mkHistory [1%nat; 2%nat; 3%nat] 0)) as [_ H2].
  destruct (H1 ltac:(discharge)) as (s & Hs & _ & Hr).
  split; [|apply H2; discharge].
  rewrite Hr. vm_compute in Hs. injection Hs as <-. reflexivity.
Defined.

(* ------------------------------------------------------------------ *)
(** ** Lemmas on the layout *)

Lemma find_nth_error {T} (f : T -> bool) (L : list T) (a : T) :
  find f L = Some a -> exists i, nth_error L i = Some a /\ f a = true.
Proof.
  intros H. destruct (find_some f L H) as [Hin Hf].
  destruct (In_nth_error L a Hin) as [i Hi]. eauto.
Qed.

Lemma nodup_ids_index (L : list Component) (i j : nat) (a b : Component) :
  NoDup (map id L) -> nth_error L i = Some a -> nth_error L j = Some b ->
  id a = id b -> i = j.
Proof.
  intros Hnd Ha Hb Hab.
  apply (proj1 (NoDup_nth_error (map id L)) Hnd).
  - rewrite length_map. apply nth_error_Some. rewrite Ha. discriminate.
  - rewrite !nth_error_map, Ha, Hb. simpl. rewrite Hab. reflexivity.
Qed.

(** Non-overlap only depends on footprints: it is carried over along an
    injective re-indexing that preserves them. *)
Lemma NoOverlap_reindex (L L' : list Component) (sigma : nat -> nat) :
  (forall i j, i <> j -> sigma i <> sigma j) ->
  (forall k c', nth_error L' k = Some c' ->
     exists c, nth_error L (sigma k) = Some c /\ footprint c' = footprint c) ->
  NoOverlap L -> NoOverlap L'.
Proof.
  intros Hinj Hfp HL i j a b Hij Ha Hb Hy.
  destruct (Hfp i a Ha) as (a0 & Ha0 & Efa).
  destruct (Hfp j b Hb) as (b0 & Hb0 & Efb).
  unfold footprint in Efa, Efb.
  injection Efa as Xa Ya Wa. injection Efb as Xb Yb Wb.
  rewrite Xa, Wa, Xb, Wb.
  apply (HL (sigma i) (sigma j) a0 b0); auto.
  congruence.
Qed.

Lemma find_none_forall (cid : string) (L : list Component) :
  Forall (fun c => id c <> cid) L -> find (fun c => String.eqb (id c) cid) L = None.
Proof.
  induction 1 as [|c L Hc _ IH]; [reflexivity|]. simpl.
  destruct (String.eqb_spec (id c) cid); [contradiction | exact IH].
Qed.

Lemma calculateNextPosition_app_last (L : list Component) (c : Component) :
  calculateNextPosition (L ++ [c]) = nextPositionFrom c.
Proof.
  destruct L as [|c0 L]; [reflexivity|].
  assert (Hl : last ((c0 :: L) ++ [c]) c0 = c) by apply last_last.
  unfold calculateNextPosition. simpl app in *. cbv iota beta. rewrite Hl. reflexivity.
Qed.

(* ------------------------------------------------------------------ *)
(** ** Claims on the layout *)

(** C1 (as the code behaves): the swap exchanges the anchor positions of the
    dragged and target components and keeps their widths; when both have
    the same width (and ids are unique) every row stays free of overlaps. *)
Theorem reorder_swap_same_width_no_overlap (L : list Component) (componentId : string)
  (gridX gridY : Z) (d t : Component) (L' : list Component)
  (Hids : NoDup (map id L)) (Hok : NoOverlap L)
  (Hd : find (fun c => String.eqb (id c) componentId) L = Some d)
  (Ht : find (isTarget componentId gridX gridY) L = Some t)
  (Hw : width t = width d)
  (Hr : reorderAtCell L componentId gridX gridY = Some L') :
  NoOverlap L'.
Proof.
  unfold reorderAtCell in Hr. rewrite Hd, Ht in Hr. injection Hr as <-.
  destruct (find_nth_error _ _ _ Hd) as (iD & HiD & Hdid).
  destruct (find_nth_error _ _ _ Ht) as (iT & HiT & Htgt).
  apply String.eqb_eq in Hdid.
  assert (Htid : id t <> componentId).
  { unfold isTarget in Htgt. destruct (String.eqb_spec (id t) componentId); [|assumption].
    discriminate. }
  assert (Hne : iD <> iT) by (intros ->; congruence).
  apply (NoOverlap_reindex L _
           (fun k => if Nat.eqb k iD then iT else if Nat.eqb k iT then iD else k));
    [| | exact Hok].
  - intros i j Hij.
    destruct (Nat.eqb_spec i iD), (Nat.eqb_spec i iT), (Nat.eqb_spec j iD), (Nat.eqb_spec j iT);
      subst; lia.
  - intros k c' Hk. rewrite nth_error_map in Hk.
    destruct (nth_error L k) as [c|] eqn:Ek; [|discriminate].
    injection Hk as <-.
    destruct (String.eqb_spec (id c) componentId) as [E1|E1].
    + assert (k = iD) by (apply (nodup_ids_index L k iD c d); congruence). subst k.
      rewrite Nat.eqb_refl. exists t. split; [exact HiT|].
      rewrite HiD in Ek. injection Ek as <-.
      unfold footprint, with_position. simpl. rewrite Hw. reflexivity.
    + destruct (String.eqb_spec (id c) (id t)) as [E2|E2].
      * assert (k = iT) by (apply (nodup_ids_index L k iT c t); congruence). subst k.
        replace (Nat.eqb iT iD) with false by (symmetry; apply Nat.eqb_neq; lia).
        rewrite Nat.eqb_refl. exists d. split; [exact HiD|].
        rewrite HiT in Ek. injection Ek as <-.
        unfold footprint, with_position. simpl. rewrite Hw. reflexivity.
      * assert (k <> iD) by (intros ->; congruence).
        assert (k <> iT) by (intros ->; congruence).
        replace (Nat.eqb k iD) with false by (symmetry; apply Nat.eqb_neq; assumption).
        replace (Nat.eqb k iT) with false by (symmetry; apply Nat.eqb_neq; assumption).
        exists c. auto.
Qed.


(** C1 as stated fails: on row 0, [a] on columns [0, 2) is dropped on cell
    (2, 0) of [b] on columns [2, 8); after the swap [a] is on [2, 4) and [b]
    on [0, 6). *)
Lemma reorder_swap_can_overlap :
  NoDup (map id [blockA; blockB]) /\
  NoOverlap [blockA; blockB] /\
  find (isTarget "a" 2 0) [blockA; blockB] = Some blockB /\
  exists L', reorderAtCell [blockA; blockB] "a" 2 0 = Some L' /\ ~ NoOverlap L'.
Proof.
  split; [repeat constructor; simpl; intuition discriminate|].
  split; [no_overlap_2|].
  split; [reflexivity|].
  eexists; split; [reflexivity|].
  intros H.
  destruct (H 0%nat 1%nat _ _ ltac:(discriminate) eq_refl eq_refl eq_refl) as [Hc|Hc];
    simpl in Hc; lia.
Qed.

Lemma reorder_swap_same_width_no_overlap_witness :
  NoOverlap [with_position blockL (mkPosition 6 0); with_position blockR (mkPosition 0 0)].
Proof.
  apply (reorder_swap_same_width_no_overlap [blockL; blockR] "l" 7 0 blockL blockR).
  - repeat constructor; simpl; intuition discriminate.
  - no_overlap_2.
  - reflexivity.
  - reflexivity.
  - reflexivity.
  - reflexivity.
Defined.



(** C2: on this reachable session every component fits the grid before the
    drop; the swap then moves the 6-wide text block to column 10, so
    [x + width = 16 > 12]. *)
Theorem reorder_swap_breaks_grid_fit :
  forallb gridFit
    (currentLayout (runSession initialSession (removelast swap_out_of_grid_actions))) = true /\
  summary (currentLayout (runSession initialSession swap_out_of_grid_actions))
    = [("image-2"%string, 0, 0, 2); ("text-1"%string, 10, 0, 6)] /\
  forallb gridFit (currentLayout (runSession initialSession swap_out_of_grid_actions)) = false.
Proof. vm_compute. repeat split. Qed.


(** C5: after the render has sorted the components array in place, the last
    array element is the text block at (0, 3), not the last-inserted image
    block at (6, 0): the next position is (6, 3), where the last-inserted
    block gives (0, 1); the next added block indeed lands on (6, 3). *)
Theorem next_position_after_render_sort :
  summary (currentLayout (runSession initialSession move_first_block_down_actions))
    = [("image-2"%string, 6, 0, 6); ("text-1"%string, 0, 3, 6)] /\
  calculateNextPosition (currentLayout (runSession initialSession move_first_block_down_actions))
    = mkPosition 6 3 /\
  (exists b, In b (currentLayout (runSession initialSession move_first_block_down_actions)) /\
     id b = "image-2"%string /\ nextPositionFrom b = mkPosition 0 1) /\
  summary (currentLayout (runSession initialSession
             (move_first_block_down_actions ++ [AddComponent text "3"])))
    = [("image-2"%string, 6, 0, 6); ("text-1"%string, 0, 3, 6); ("text-3"%string, 6, 3, 6)].
Proof.
  split; [vm_compute; reflexivity|].
  split; [vm_compute; reflexivity|].
  split; [|vm_compute; reflexivity].
  eexists. split; [vm_compute; left; reflexivity|]. split; reflexivity.
Qed.

(** C6: one mouse move with [deltaColumns = Math.round(deltaX / 100)]: from
    the right, the candidate is [clamp(startWidth + deltaColumns, 1, 12)] at
    the start column; from the left, [clamp(startWidth - deltaColumns, 1, 12)]
    with the right edge kept; the candidate replaces the final values only
    when [x + width <= 12] and [x >= 0], otherwise they stay as they were.
    For a 6-wide block at column 0 dragged 250 px to the right,
    [deltaColumns = 3] and the drag ends with width 9 at column 0. *)
Theorem resize_candidate_and_guard (component : Component) (st : ResizeState) (deltaX : Q) :
  (let deltaColumns := js_round (deltaX / inject_Z 100) in
   let startWidth := width component in
   let startX := x (position component) in
   fst (handleMouseMove component right st deltaX) =
     (let newWidth := clamp (startWidth + deltaColumns) 1 12 in
      if (startX + newWidth <=? 12) && (startX >=? 0)
      then mkResizeState newWidth startX else st) /\
   fst (handleMouseMove component left st deltaX) =
     (let newWidth := clamp (startWidth - deltaColumns) 1 12 in
      let newX := startX + (startWidth - newWidth) in
      if (newX + newWidth <=? 12) && (newX >=? 0)
      then mkResizeState newWidth newX else st)) /\
  js_round (250 / inject_Z 100) = 3 /\
  resizeDrag (mkComponent "A" text "" 6 (mkPosition 0 0)) right [250%Q]
    = mkComponent "A" text "" 9 (mkPosition 0 0).
Proof.
  split; [|split; vm_compute; reflexivity].
  cbv zeta. unfold handleMouseMove, clamp. cbv zeta.
  split.
  - destruct (_ && _); reflexivity.
  - destruct (_ && _); reflexivity.
Qed.

(** C9: a drop whose [componentId] matches no component returns early: the
    session (components, heap and history) is unchanged. *)
Theorem reorder_unknown_id_noop (s : Session) (componentId : string)
  (dropX dropY containerWidth : Q)
  (Hnone : Forall (fun c => id c <> componentId) (currentLayout s)) :
  handleComponentReorder (currentLayout s) componentId dropX dropY containerWidth = None /\
  sessionAction s (ReorderDrop componentId dropX dropY containerWidth) = s.
Proof.
  assert (Hh : handleComponentReorder (currentLayout s) componentId dropX dropY containerWidth = None).
  { unfold handleComponentReorder, reorderAtCell. rewrite find_none_forall by exact Hnone.
    reflexivity. }
  split; [exact Hh|]. simpl. rewrite Hh. reflexivity.
Qed.

Lemma reorder_unknown_id_noop_witness :
  sessionAction (runSession initialSession [AddComponent text "1"]) (ReorderDrop "image-9" 0 0 1200)
    = runSession initialSession [AddComponent text "1"].
Proof.
  apply (reorder_unknown_id_noop (runSession initialSession [AddComponent text "1"])).
  vm_compute. repeat constructor. discriminate.
Defined.

(* ------------------------------------------------------------------ *)
(** ** The render sort *)

Lemma gridCompare_flip (a b : Component) :
  gridCompare a b > 0 -> gridLe b a.
Proof.
  unfold gridLe, gridCompare.
  destruct (Z.eqb_spec (y (position a) - y (position b)) 0);
  destruct (Z.eqb_spec (y (position b) - y (position a)) 0); lia.
Qed.

Lemma insertSorted_perm (c : Component) (l : list Component) :
  Permutation (insertSorted c l) (c :: l).
Proof.
  induction l as [|h t IH]; simpl; [reflexivity|].
  destruct (gridCompare c h <=? 0); [reflexivity|].
  rewrite IH. apply perm_swap.
Qed.

Lemma insertSorted_hdrel (a c : Component) (l : list Component) :
  HdRel gridLe a l -> gridLe a c -> HdRel gridLe a (insertSorted c l).
Proof.
  intros Hh Hac. destruct l as [|h t]; simpl; [constructor; exact Hac|].
  destruct (gridCompare c h <=? 0); constructor; [exact Hac|].
  inversion Hh; assumption.
Qed.

Lemma insertSorted_sorted (c : Component) (l : list Component) :
  Sorted gridLe l -> Sorted gridLe (insertSorted c l).
Proof.
  induction l as [|h t IH]; intros Hs; simpl; [repeat constructor|].
  destruct (gridCompare c h <=? 0) eqn:E.
  - constructor; [exact Hs|]. constructor. apply Z.leb_le, E.
  - apply Sorted_inv in Hs as [Ht Hh]. constructor; [apply IH, Ht|].
    apply insertSorted_hdrel; [exact Hh|]. apply gridCompare_flip.
    apply Z.leb_gt in E. lia.
Qed.

Lemma js_sort_of_sorted (l : list Component) : Sorted gridLe l -> js_sort l = l.
Proof.
  induction l as [|a t IH]; intros Hs; [reflexivity|].
  apply Sorted_inv in Hs as [Ht Hh]. simpl. fold (js_sort t). rewrite IH by exact Ht.
  destruct t as [|b t']; [reflexivity|]. simpl.
  inversion Hh as [|? ? Hab]; subst.
  unfold gridLe in Hab. apply Z.leb_le in Hab. rewrite Hab. reflexivity.
Qed.

Lemma nth_set_nth_same {T} (n : nat) (v d : T) (l : list T) :
  (n < length l)%nat -> nth n (set_nth n v l) d = v.
Proof.
  revert n. induction l as [|h t IH]; intros n Hn; simpl in *; [lia|].
  destruct n; simpl; [reflexivity|]. apply IH. lia.
Qed.

Lemma nth_set_nth_other {T} (n m : nat) (v d : T) (l : list T) :
  n <> m -> nth m (set_nth n v l) d = nth m l d.
Proof.
  revert n m. induction l as [|h t IH]; intros n m Hnm; [destruct n; reflexivity|].
  destruct n, m; simpl; try reflexivity; [lia|]. apply IH. lia.
Qed.


Lemma set_nth_set_nth {T} (n : nat) (v w : T) (l : list T) :
  set_nth n v (set_nth n w l) = set_nth n v l.
Proof.
  revert n. induction l as [|h t IH]; intros n; [destruct n; reflexivity|].
  destruct n; simpl; [reflexivity|]. rewrite IH. reflexivity.
Qed.

Lemma nth_set_nth_out {T} (n : nat) (v d : T) (l : list T) :
  (length l <= n)%nat -> set_nth n v l = l.
Proof.
  revert n. induction l as [|h t IH]; intros n Hn; [destruct n; reflexivity|].
  destruct n; simpl in *; [lia|]. rewrite IH by lia. reflexivity.
Qed.

(** The comparator of the render sort is a total order on grid cells: the
    array [components.sort] produces is sorted by row, then column, and holds
    the same components as before. *)
Theorem js_sort_sorted_perm (l : list Component) :
  Sorted gridLe (js_sort l) /\ Permutation (js_sort l) l.
Proof.
  induction l as [|c t [IHs IHp]]; simpl; [split; constructor|].
  fold (js_sort t). split.
  - apply insertSorted_sorted, IHs.
  - rewrite insertSorted_perm. apply perm_skip, IHp.
Qed.

(** A second render changes nothing: sorting the already sorted array in
    place gives the same heap. *)
Theorem render_idempotent (s : Session) : render (render s) = render s.
Proof.
  destruct s as [hp c h]. unfold render, currentLayout, deref; simpl.
  destruct (Nat.lt_ge_cases c (length hp)) as [Hc|Hc].
  - rewrite nth_set_nth_same by exact Hc.
    rewrite js_sort_of_sorted by apply js_sort_sorted_perm.
    rewrite set_nth_set_nth. reflexivity.
  - repeat rewrite (nth_set_nth_out c _ [] hp Hc). reflexivity.
Qed.

(** The render only rearranges the array shown: the shown components are a
    permutation of those before, the history and every other array are left
    as they were. *)
Theorem render_only_sorts_shown_array (s : Session) :
  Permutation (currentLayout (render s)) (currentLayout s) /\
  hist (render s) = hist s /\ components (render s) = components s /\
  (forall r, r <> components s -> deref (render s) r = deref s r).
Proof.
  destruct s as [hp c h]. unfold render, currentLayout, deref; simpl.
  split; [|split; [reflexivity|split; [reflexivity|]]].
  - destruct (Nat.lt_ge_cases c (length hp)) as [Hc|Hc].
    + rewrite nth_set_nth_same by exact Hc. apply js_sort_sorted_perm.
    + rewrite (nth_set_nth_out c _ [] hp Hc). reflexivity.
  - intros r Hr. apply nth_set_nth_other. congruence.
Qed.

(* ------------------------------------------------------------------ *)
(** ** History invariant *)

Section HistoryInvariant.
Context {A : Type}.


Lemma js_index_some (l : list A) (i : Z) :
  0 <= i < Z.of_nat (length l) -> exists r, js_index l i = Some r.
Proof.
  intros Hi. unfold js_index.
  replace (i <? 0) with false by (symmetry; apply Z.ltb_ge; lia).
  destruct (nth_error l (Z.to_nat i)) as [r|] eqn:E; [eauto|].
  apply nth_error_None in E. lia.
Qed.

Lemma js_index_nat (l : list A) (n : nat) : js_index l (Z.of_nat n) = nth_error l n.
Proof.
  unfold js_index. replace (Z.of_nat n <? 0) with false by (symmetry; apply Z.ltb_ge; lia).
  rewrite Nat2Z.id. reflexivity.
Qed.


(** What a commit does to a history that keeps its bounds. *)
Lemma addToHistory_facts (h : History A) (s : A) :
  histInv h ->
  histInv (addToHistory h s) /\
  js_index (history (addToHistory h s)) (historyIndex (addToHistory h s)) = Some s /\
  (0 <= historyIndex h ->
     0 < historyIndex (addToHistory h s) /\
     js_index (history (addToHistory h s)) (historyIndex (addToHistory h s) - 1)
       = js_index (history h) (historyIndex h)) /\
  (forall r, In r (history (addToHistory h s)) -> In r (history h) \/ r = s).
Proof.
  destruct h as [l i]. unfold histInv; simpl. intros (Hlo & Hhi & Hcap).
  unfold addToHistory; simpl. rewrite js_slice0_nonneg by lia.
  set (n := Z.to_nat (i + 1)).
  assert (Hn : length (firstn n l) = n) by (rewrite length_firstn; unfold n; lia).
  assert (Hpre : forall k, (k < n)%nat -> nth_error (firstn n l) k = nth_error l k).
  { intros k Hk. rewrite <- (firstn_skipn n l) at 2. rewrite nth_error_app1 by lia.
    reflexivity. }
  assert (Hin : forall r, In r (firstn n l ++ [s]) -> In r l \/ r = s).
  { intros r Hr. apply in_app_or in Hr as [Hr|[Hr|[]]]; [|right; auto].
    left. rewrite <- (firstn_skipn n l). apply in_or_app. left. exact Hr. }
  destruct (Z.of_nat (length (firstn n l ++ [s])) >? 50) eqn:E; simpl.
  - rewrite Z.gtb_ltb, Z.ltb_lt, length_app, Hn in E. simpl in E.
    assert (i = 49) by (unfold n in E; lia). subst i.
    assert (Hl : length l = 50%nat) by lia.
    assert (Hfl : firstn n l = l) by (apply firstn_all2; unfold n; lia).
    rewrite Hfl in *.
    destruct l as [|a r]; [discriminate|]. cbn [tl app length] in *.
    injection Hl as Hr.
    assert (H48 : js_index (r ++ [s]) 48 = nth_error r 48).
    { change 48 with (Z.of_nat 48). rewrite js_index_nat, nth_error_app1 by lia. reflexivity. }
    assert (H49 : js_index (r ++ [s]) 49 = Some s).
    { change 49 with (Z.of_nat 49). rewrite js_index_nat, nth_error_app2 by lia.
      rewrite Hr. reflexivity. }
    rewrite length_app, Hr. simpl.
    split; [lia|]. split; [exact H49|]. split.
    + intros _. split; [lia|]. simpl. rewrite H48.
      change 49 with (Z.of_nat 49). rewrite js_index_nat. reflexivity.
    + intros r' Hr'. destruct (Hin r' (in_cons a r' _ Hr')) as [H|H]; auto.
  - rewrite Z.gtb_ltb, Z.ltb_ge, length_app, Hn in E. simpl in E.
    rewrite length_app, Hn. simpl.
    split; [unfold n in *; lia|].
    split.
    { replace (Z.of_nat (n + 1) - 1) with (Z.of_nat n) by lia.
      rewrite js_index_nat, nth_error_app2 by lia. rewrite Hn, Nat.sub_diag. reflexivity. }
    split; [|exact Hin].
    intros Hi. split; [lia|].
    replace (Z.of_nat (n + 1) - 1 - 1) with (Z.of_nat (Z.to_nat i)) by (unfold n; lia).
    rewrite js_index_nat, nth_error_app1 by (rewrite Hn; unfold n; lia).
    rewrite Hpre by (unfold n; lia).
    rewrite <- js_index_nat. f_equal. lia.
Qed.

(** [undo()] and [redo()] keep the bounds, and when they move the index they
    show the snapshot now under it. *)
Lemma undo_facts (h : History A) :
  histInv h ->
  histInv (fst (undo h)) /\
  (undo h = (h, None) \/
   exists r, snd (undo h) = Some (Some r) /\
     js_index (history (fst (undo h))) (historyIndex (fst (undo h))) = Some r).
Proof.
  destruct h as [l i]. unfold histInv, undo; simpl. intros (Hlo & Hhi & Hcap).
  destruct (i >? 0) eqn:E; simpl; [|auto].
  rewrite Z.gtb_ltb, Z.ltb_lt in E.
  split; [lia|]. right.
  destruct (js_index_some l (i - 1)) as [r Hr]; [lia|].
  exists r. rewrite Hr. auto.
Qed.

Lemma redo_facts (h : History A) :
  histInv h ->
  histInv (fst (redo h)) /\
  (redo h = (h, None) \/
   exists r, snd (redo h) = Some (Some r) /\
     js_index (history (fst (redo h))) (historyIndex (fst (redo h))) = Some r).
Proof.
  destruct h as [l i]. unfold histInv, redo; simpl. intros (Hlo & Hhi & Hcap).
  destruct (i <? Z.of_nat (length l) - 1) eqn:E; simpl; [|auto].
  rewrite Z.ltb_lt in E.
  split; [lia|]. right.
  destruct (js_index_some l (i + 1)) as [r Hr]; [lia|].
  exists r. rewrite Hr. auto.
Qed.

Lemma runHistory_inv (h : History A) (ops : list (HistoryOp A)) :
  histInv h -> histInv (runHistory h ops).
Proof.
  revert h. induction ops as [|op ops IH]; intros h Hh; simpl; [exact Hh|].
  apply IH. destruct op as [s| |]; simpl.
  - apply addToHistory_facts, Hh.
  - apply undo_facts, Hh.
  - apply redo_facts, Hh.
Qed.

(** Every history reached from the empty one by commits, undos and redos
    keeps [-1 <= historyIndex < length <= 50], and a non-negative index
    always names a stored snapshot. *)
Theorem history_bounds_reachable (ops : list (HistoryOp A)) :
  histInv (runHistory emptyHistory ops) /\
  (0 <= historyIndex (runHistory emptyHistory ops) ->
   exists r, js_index (history (runHistory emptyHistory ops))
                      (historyIndex (runHistory emptyHistory ops)) = Some r).
Proof.
  assert (H : histInv (runHistory emptyHistory ops))
    by (apply runHistory_inv; unfold histInv; simpl; lia).
  split; [exact H|]. intros Hi. apply js_index_some.
  destruct H as (_ & H & _). lia.
Qed.

End HistoryInvariant.

(* ------------------------------------------------------------------ *)
(** ** Session invariant *)

Lemma deref_setAndCommit_new (s : Session) (arr : list Component) :
  currentLayout (setAndCommit s arr) = arr.
Proof.
  unfold currentLayout, deref, setAndCommit; simpl.
  rewrite app_nth2 by lia. rewrite Nat.sub_diag. reflexivity.
Qed.













(** [clearComponents] empties the layout and the history: neither undo nor
    redo can bring anything back, both leave the session as it is. *)
Theorem clear_is_not_undoable (s : Session) :
  currentLayout (render (sessionAction s ClearComponents)) = [] /\
  hist (render (sessionAction s ClearComponents)) = emptyHistory /\
  sessionAction (render (sessionAction s ClearComponents)) Undo
    = render (sessionAction s ClearComponents) /\
  sessionAction (render (sessionAction s ClearComponents)) Redo
    = render (sessionAction s ClearComponents).
Proof.
  destruct s as [hp c h]. cbn [sessionAction].
  unfold render, currentLayout, deref; cbn [heap components hist].
  rewrite app_nth2 by lia. rewrite Nat.sub_diag. cbn [nth js_sort fold_right].
  split; [apply nth_set_nth_same; rewrite length_app; simpl; lia|].
  split; [reflexivity|]. split; reflexivity.
Qed.

Lemma filter_all_kept (cid : string) (L : list Component) :
  Forall (fun c => id c <> cid) L ->
  filter (fun c => negb (String.eqb (id c) cid)) L = L.
Proof.
  induction 1 as [|c L Hc _ IH]; [reflexivity|]. simpl.
  destruct (String.eqb_spec (id c) cid); [contradiction|]. simpl. rewrite IH. reflexivity.
Qed.

(** Deleting an id that no component has leaves the layout as it was, but
    unlike an unmatched reorder it still records a history entry: the index
    advances onto a new snapshot holding the unchanged components. *)
Theorem delete_absent_id_still_commits (s : Session) (cid : string)
  (Hinv : histInv (hist s))
  (Hroom : historyIndex (hist s) <= 48)
  (Habsent : Forall (fun c => id c <> cid) (currentLayout s)) :
  currentLayout (sessionAction s (DeleteComponent cid)) = currentLayout s /\
  historyIndex (hist (sessionAction s (DeleteComponent cid))) = historyIndex (hist s) + 1 /\
  js_index (history (hist (sessionAction s (DeleteComponent cid))))
           (historyIndex (hist (sessionAction s (DeleteComponent cid))))
    = Some (components (sessionAction s (DeleteComponent cid))).
Proof.
  simpl. rewrite deref_setAndCommit_new, filter_all_kept by exact Habsent.
  split; [reflexivity|].
  destruct (addToHistory_facts (hist s) (length (heap s)) Hinv) as (_ & Hlast & _).
  split; [|exact Hlast].
  destruct (hist s) as [l i]. unfold histInv in Hinv; simpl in *.
  unfold addToHistory; simpl. rewrite js_slice0_nonneg by lia.
  rewrite length_app, length_firstn. simpl.
  replace (Z.of_nat (Nat.min (Z.to_nat (i + 1)) (length l) + 1) >? 50) with false
    by (symmetry; rewrite Z.gtb_ltb; apply Z.ltb_ge; lia).
  simpl. lia.
Qed.

Lemma delete_absent_id_still_commits_witness :
  historyIndex (hist (sessionAction (runSession initialSession [AddComponent text "1"])
                                    (DeleteComponent "image-7"))) = 1.
Proof.
  pose proof (delete_absent_id_still_commits (runSession initialSession [AddComponent text "1"])
                "image-7") as H.
  destruct H as (_ & H & _).
  - unfold histInv; cbn; lia.
  - discharge.
  - cbn. repeat constructor. discriminate.
  - rewrite H. reflexivity.
Defined.

(* ------------------------------------------------------------------ *)
(** ** Reorder, add, update and resize on the layout *)

(** The fields of a block other than its position. *)
Definition blockData (c : Component) : string * ComponentKind * string * Z :=
  (id c, type c, content c, width c).

Lemma calculateGridPosition_bounds (dropX dropY containerWidth : Q) :
  0 <= x (calculateGridPosition dropX dropY containerWidth) <= GRID_COLUMNS - 1 /\
  0 <= y (calculateGridPosition dropX dropY containerWidth).
Proof. unfold calculateGridPosition, GRID_COLUMNS; simpl. lia. Qed.

Lemma nodup_ids_in (L : list Component) (a b : Component) :
  NoDup (map id L) -> In a L -> In b L -> id a = id b -> a = b.
Proof.
  intros Hnd Ha Hb Hab.
  destruct (In_nth_error L a Ha) as [i Hi].
  destruct (In_nth_error L b Hb) as [j Hj].
  assert (i = j) as -> by exact (nodup_ids_index L i j a b Hnd Hi Hj Hab).
  rewrite Hi in Hj. injection Hj as ->. reflexivity.
Qed.

Lemma reorder_newX_fits (gridX w : Z) :
  1 <= w <= 12 -> (if gridX + w >? 12 then Z.max 0 (12 - w) else gridX) + w <= 12.
Proof. intros Hw. destruct (Z.gtb_spec (gridX + w) 12); lia. Qed.

(** Reordering moves blocks only: the resulting array has the same blocks,
    in the same order, with the same ids, kinds, contents and widths; only
    [position] may differ. *)
Theorem reorder_keeps_block_data (L L' : list Component) (componentId : string)
  (dropX dropY containerWidth : Q)
  (Hr : handleComponentReorder L componentId dropX dropY containerWidth = Some L') :
  map blockData L' = map blockData L.
Proof.
  unfold handleComponentReorder, reorderAtCell in Hr.
  destruct (find (fun c => String.eqb (id c) componentId) L) as [d|]; [|discriminate].
  destruct (find (isTarget _ _ _) L) as [t|]; injection Hr as <-;
    rewrite map_map; apply map_ext; intros c;
    repeat match goal with |- context [if ?b then _ else _] => destruct b end;
    reflexivity.
Qed.

Lemma reorder_keeps_block_data_witness :
  map blockData [with_position blockL (mkPosition 0 3); blockR] = map blockData [blockL; blockR].
Proof.
  apply (reorder_keeps_block_data [blockL; blockR] _ "l" 50 250 1200).
  vm_compute. reflexivity.
Defined.

Lemma reorderAtCell_anchors_nonneg (L L' : list Component) (componentId : string)
  (gridX gridY : Z) (Hgx : 0 <= gridX) (Hgy : 0 <= gridY)
  (Hnn : Forall (fun c => 0 <= x (position c) /\ 0 <= y (position c)) L)
  (Hr : reorderAtCell L componentId gridX gridY = Some L') :
  Forall (fun c => 0 <= x (position c) /\ 0 <= y (position c)) L'.
Proof.
  unfold reorderAtCell in Hr.
  destruct (find (fun c => String.eqb (id c) componentId) L) as [d|] eqn:Hd; [|discriminate].
  destruct (find (isTarget _ _ _) L) as [t|] eqn:Ht; injection Hr as <-;
    apply Forall_map, Forall_forall; intros c HcIn;
    pose proof (proj1 (Forall_forall _ L) Hnn c HcIn) as Hc.
  - pose proof (proj1 (Forall_forall _ L) Hnn d (proj1 (find_some _ _ Hd))) as Hdnn.
    pose proof (proj1 (Forall_forall _ L) Hnn t (proj1 (find_some _ _ Ht))) as Htnn.
    repeat match goal with |- context [if ?b then _ else _] => destruct b end;
      simpl; assumption.
  - destruct (String.eqb (id c) componentId); [|exact Hc].
    simpl. unfold GRID_COLUMNS.
    destruct (gridX + width d >? 12); lia.
Qed.

(** For a drop inside a container of positive width, reordering never
    sends a block to a negative column or row: if all anchors are
    non-negative before, they all are after (the swap reuses existing
    anchors, the move uses the clamped drop cell). *)
Theorem reorder_keeps_anchors_nonneg (L L' : list Component) (componentId : string)
  (dropX dropY containerWidth : Q) (Hcw : (0 < containerWidth)%Q)
  (Hnn : Forall (fun c => 0 <= x (position c) /\ 0 <= y (position c)) L)
  (Hr : handleComponentReorder L componentId dropX dropY containerWidth = Some L') :
  Forall (fun c => 0 <= x (position c) /\ 0 <= y (position c)) L'.
Proof.
  destruct (calculateGridPosition_bounds dropX dropY containerWidth) as [Hgx Hgy].
  exact (reorderAtCell_anchors_nonneg L L' componentId _ _ (proj1 Hgx) Hgy Hnn Hr).
Qed.

Lemma reorder_keeps_anchors_nonneg_witness :
  Forall (fun c => 0 <= x (position c) /\ 0 <= y (position c))
    [with_position blockL (mkPosition 0 3); blockR].
Proof.
  apply (reorder_keeps_anchors_nonneg [blockL; blockR] _ "l" 50 250 1200).
  - reflexivity.
  - repeat constructor; discriminate.
  - vm_compute. reflexivity.
Defined.

(** A reorder onto a free cell (no other block covers it) keeps every block
    inside the grid: when ids are unique and every block satisfies
    [1 <= width <= 12] and [x + width <= 12], so does every block after the
    move, the dragged one being pulled back to [x = 12 - width] when it
    would stick out. *)
Theorem reorder_to_free_cell_fits_grid (L L' : list Component) (componentId : string)
  (dropX dropY containerWidth : Q)
  (Hids : NoDup (map id L)) (Hfit : Forall (fun c => gridFit c = true) L)
  (Hfree : find (isTarget componentId (x (calculateGridPosition dropX dropY containerWidth))
                                      (y (calculateGridPosition dropX dropY containerWidth))) L = None)
  (Hr : handleComponentReorder L componentId dropX dropY containerWidth = Some L') :
  Forall (fun c => gridFit c = true) L'.
Proof.
  unfold handleComponentReorder in Hr.
  revert Hfree Hr.
  generalize (x (calculateGridPosition dropX dropY containerWidth)) as gridX.
  generalize (y (calculateGridPosition dropX dropY containerWidth)) as gridY.
  intros gridY gridX Hfree Hr. unfold reorderAtCell in Hr.
  destruct (find (fun c => String.eqb (id c) componentId) L) as [d|] eqn:Hd; [|discriminate].
  rewrite Hfree in Hr. injection Hr as <-.
  destruct (find_some _ _ Hd) as [HdIn Hdid]. apply String.eqb_eq in Hdid.
  apply Forall_map. apply Forall_forall. intros c HcIn.
  pose proof (proj1 (Forall_forall _ L) Hfit c HcIn) as Hc.
  destruct (String.eqb_spec (id c) componentId) as [Hcid|]; [|exact Hc].
  assert (c = d) as -> by (apply (nodup_ids_in L); congruence).
  revert Hc. unfold gridFit, GRID_COLUMNS. cbn [with_position position x width].
  rewrite !andb_true_iff, !Z.leb_le. intros [Hw _]. split; [exact Hw|].
  exact (reorder_newX_fits gridX (width d) Hw).
Qed.

Lemma reorder_to_free_cell_fits_grid_witness :
  Forall (fun c => gridFit c = true) [with_position blockL (mkPosition 0 3); blockR].
Proof.
  apply (reorder_to_free_cell_fits_grid [blockL; blockR] _ "l" 50 250 1200).
  - repeat constructor; simpl; intuition discriminate.
  - repeat constructor.
  - vm_compute. reflexivity.
  - vm_compute. reflexivity.
Defined.

(** [addComponent] appends exactly one new block at the end of the shown
    array and keeps the others as they were; the new block has the
    requested kind, width 6, and fits the grid ([x + 6 <= 12]), wherever the
    last block of the array is. *)
Theorem add_component_appends_fitting_block (s : Session) (kind : ComponentKind)
  (timestamp : string) :
  currentLayout (sessionAction s (AddComponent kind timestamp))
    = currentLayout s ++ [createComponent (currentLayout s) kind timestamp] /\
  type (createComponent (currentLayout s) kind timestamp) = kind /\
  width (createComponent (currentLayout s) kind timestamp) = 6 /\
  gridFit (createComponent (currentLayout s) kind timestamp) = true.
Proof.
  split; [apply deref_setAndCommit_new|].
  unfold createComponent, calculateNextPosition, gridFit.
  destruct (currentLayout s) as [|c0 l]; [destruct kind; repeat split|].
  set (lc := last (c0 :: l) c0).
  destruct (x (position lc) + width lc + 6 <=? 12) eqn:E;
    destruct kind; simpl; rewrite ?E; repeat split.
Qed.

Lemma update_map_ids (L : list Component) (u : Component) :
  map id (map (fun c => if String.eqb (id c) (id u) then u else c) L) = map id L.
Proof.
  rewrite map_map. apply map_ext. intros c.
  destruct (String.eqb_spec (id c) (id u)); congruence.
Qed.

(** [updateComponent], and the resize drag that ends in it, never add,
    remove or reorder blocks: the ids of the shown array are the same, in
    the same order. *)
Theorem update_and_resize_keep_ids (s : Session) (u : Component) (cid : string)
  (direction : Direction) (moves : list Q) :
  map id (currentLayout (sessionAction s (UpdateComponent u))) = map id (currentLayout s) /\
  map id (currentLayout (sessionAction s (ResizeDrag cid direction moves))) = map id (currentLayout s).
Proof.
  split.
  - simpl. unfold updateComponent. rewrite deref_setAndCommit_new. apply update_map_ids.
  - simpl. destruct (find _ (currentLayout s)) as [comp|]; [|reflexivity].
    unfold updateComponent. rewrite deref_setAndCommit_new. apply update_map_ids.
Qed.

(** [undo] acts only when [historyIndex > 0]: the first commit on an empty
    history (at start, or after clearing) can never be undone; undo leaves
    the session as it is, and the index stays on that first snapshot. *)
Theorem first_commit_cannot_be_undone (s : Session) (a : Action)
  (Hcommit : match a with
             | AddComponent _ _ | UpdateComponent _ | DeleteComponent _ => True
             | _ => False end)
  (Hempty : hist s = emptyHistory) :
  sessionAction (render (sessionAction s a)) Undo = render (sessionAction s a) /\
  historyIndex (hist (render (sessionAction s a))) = 0.
Proof.
  destruct s as [hp c h]; simpl in Hempty; subst h.
  destruct a; try contradiction; split; reflexivity.
Qed.

Lemma first_commit_cannot_be_undone_witness :
  sessionAction (render (sessionAction
      (runSession initialSession [AddComponent text "1"; ClearComponents])
      (AddComponent image "2"))) Undo
  = render (sessionAction (runSession initialSession [AddComponent text "1"; ClearComponents])
                          (AddComponent image "2")).
Proof.
  apply (first_commit_cannot_be_undone
           (runSession initialSession [AddComponent text "1"; ClearComponents])
           (AddComponent image "2")).
  - exact I.
  - reflexivity.
Defined.

Lemma resize_fold_inv (c : Component) (direction : Direction) (P : ResizeState -> Prop)
  (Hstep : forall st d, P st -> P (fst (handleMouseMove c direction st d))) :
  forall moves st, P st ->
    P (fold_left (fun st d => fst (handleMouseMove c direction st d)) moves st).
Proof. induction moves as [|d moves IH]; intros st Hst; simpl; auto. Qed.

Lemma handleMouseMove_state (c : Component) (direction : Direction) (st : ResizeState) (d : Q) :
  fst (handleMouseMove c direction st d) = st \/
  (1 <= finalWidth (fst (handleMouseMove c direction st d)) <= 12 /\
   0 <= finalPosition (fst (handleMouseMove c direction st d)) /\
   finalPosition (fst (handleMouseMove c direction st d))
     + finalWidth (fst (handleMouseMove c direction st d)) <= 12 /\
   (direction = left -> finalPosition (fst (handleMouseMove c direction st d))
                          + finalWidth (fst (handleMouseMove c direction st d))
                        = x (position c) + width c) /\
   (direction = right -> finalPosition (fst (handleMouseMove c direction st d)) = x (position c))).
Proof.
  unfold handleMouseMove. set (dc := js_round _).
  destruct direction; cbn beta iota zeta;
    match goal with |- context [if ?b then _ else _] => destruct b eqn:E end;
    simpl; [right| left; reflexivity | right | left; reflexivity];
    apply andb_true_iff in E; destruct E as [E1 E2];
    apply Z.leb_le in E1; apply Z.geb_le in E2;
    repeat split; try lia; intros; discriminate.
Qed.

(** A resize drag started on a block inside the grid ends on a block inside
    the grid: width in [1, 12], [0 <= x] and [x + width <= 12], whatever
    the mouse moves; row, id, kind and content are unchanged. *)
Theorem resize_drag_fits_grid (c : Component) (direction : Direction) (moves : list Q)
  (Hw : 1 <= width c <= 12) (Hx : 0 <= x (position c))
  (Hfit : x (position c) + width c <= 12) :
  gridFit (resizeDrag c direction moves) = true /\
  0 <= x (position (resizeDrag c direction moves)) /\
  y (position (resizeDrag c direction moves)) = y (position c) /\
  id (resizeDrag c direction moves) = id c /\
  type (resizeDrag c direction moves) = type c /\
  content (resizeDrag c direction moves) = content c.
Proof.
  unfold resizeDrag, handleMouseUp, with_width_x.
  set (P := fun st => 1 <= finalWidth st <= 12 /\ 0 <= finalPosition st /\
                      finalPosition st + finalWidth st <= 12).
  assert (HP : P (fold_left (fun st d => fst (handleMouseMove c direction st d))
                            moves (resizeStart c))).
  { apply resize_fold_inv.
    - intros st d Hst. destruct (handleMouseMove_state c direction st d) as [->|H];
        [exact Hst|unfold P; tauto].
    - unfold P, resizeStart; simpl. lia. }
  destruct HP as (HP1 & HP2 & HP3). unfold gridFit; simpl.
  rewrite !andb_true_iff, !Z.leb_le. repeat split; lia.
Qed.

Lemma resize_drag_fits_grid_witness :
  gridFit (resizeDrag blockR left [400%Q; (-900)%Q]) = true.
Proof.
  apply (resize_drag_fits_grid blockR left [400%Q; (-900)%Q]); simpl; lia.
Defined.

(** The edge opposite to the handle never moves: a drag on the left handle
    keeps [x + width] (the right edge), a drag on the right handle keeps
    [x] (the left edge); neither changes the row. *)
Theorem resize_drag_keeps_opposite_edge (c : Component) (moves : list Q) :
  x (position (resizeDrag c left moves)) + width (resizeDrag c left moves)
    = x (position c) + width c /\
  x (position (resizeDrag c right moves)) = x (position c) /\
  y (position (resizeDrag c left moves)) = y (position c) /\
  y (position (resizeDrag c right moves)) = y (position c).
Proof.
  unfold resizeDrag, handleMouseUp, with_width_x; simpl.
  split; [|split; [|split; reflexivity]].
  - apply (resize_fold_inv c left
             (fun st => finalPosition st + finalWidth st = x (position c) + width c)).
    + intros st d Hst. destruct (handleMouseMove_state c left st d) as [->|H];
        [exact Hst|apply H; reflexivity].
    + simpl. lia.
  - apply (resize_fold_inv c right (fun st => finalPosition st = x (position c))).
    + intros st d Hst. destruct (handleMouseMove_state c right st d) as [->|H];
        [exact Hst|apply H; reflexivity].
    + reflexivity.
Qed.
